(** * launch_distributed: the MPI launch helper of mlx_lm

    A shallow embedding of [llms/mlx_lm/launch_distributed.py].
    Python values that the script moves around are [str] and [bytes]
    objects; both are modelled over [string], a character standing for
    one code point below 256 (for [str]) or for one byte (for [bytes]).
    Effects (reading the host file, ssh probes, the [which] lookup, the
    temporary file, printing, [os.execv]) act on an explicit [World] and
    are recorded in a trace. *)

From Stdlib Require Import ZArith Ascii String DecimalString.
From stdpp Require Import gmap strings list fin_maps stringmap.

(** ** Python strings *)

Module PyStr.

(** [str.isspace] on one character, for the code points below 256:
    TAB, LF, VT, FF, CR, FS, GS, RS, US, SPACE, NEL and NBSP. *)
Definition isspace (c : ascii) : bool :=
  let n := nat_of_ascii c in
  (((9 <=? n) && (n <=? 13)) || ((28 <=? n) && (n <=? 32))
   || (n =? 133) || (n =? 160))%nat.

(** [s.lstrip()] *)
Fixpoint lstrip (s : string) : string :=
  match s with
  | String c r => if isspace c then lstrip r else s
  | EmptyString => EmptyString
  end.

(** [s.rstrip()]: a character stays when it is not a space or when
    something stays after it. *)
Fixpoint rstrip (s : string) : string :=
  match s with
  | String c r =>
      match rstrip r with
      | EmptyString => if isspace c then EmptyString else String c EmptyString
      | r' => String c r'
      end
  | EmptyString => EmptyString
  end.

(** [s.strip()] *)
Definition strip (s : string) : string := rstrip (lstrip s).

(** [s.split(sep)] for a one-character separator; [cur] is the piece
    being read.  The result is never empty: [''.split(',') == ['']]. *)
Fixpoint split_from (sep : ascii) (cur : string) (s : string) {struct s} : list string :=
  match s with
  | String c r =>
      if Ascii.eqb c sep then cur :: split_from sep EmptyString r
      else split_from sep (cur +:+ String c EmptyString) r
  | EmptyString => [cur]
  end.

Definition split (sep : ascii) (s : string) : list string :=
  split_from sep EmptyString s.

(** Iterating over a file opened in text mode: the lines of the text,
    each with its terminator; a last line without a terminator is
    produced when it is not empty. *)
Fixpoint lines_from (cur : string) (s : string) {struct s} : list string :=
  match s with
  | String c r =>
      if Ascii.eqb c "010" then (cur +:+ String c EmptyString) :: lines_from EmptyString r
      else lines_from (cur +:+ String c EmptyString) r
  | EmptyString => match cur with EmptyString => [] | _ => [cur] end
  end.

Definition lines (s : string) : list string := lines_from EmptyString s.

(** [str(n)] for an [int] *)
Definition of_int (n : Z) : string := NilZero.string_of_int (Z.to_int n).

End PyStr.

(** The line terminator. *)
Definition nl : string := String "010" EmptyString.

(** ** Values, exceptions and the outside world *)

(** The two kinds of Python object that reach a file write, a join or
    [os.execv] in this script. *)
Inductive pyval :=
| PStr (s : string)
| PBytes (b : string).

(** Exceptions.  [ValueError] is the one the script raises itself, with
    the message it gives it; the others are raised by the interpreter
    and its library. *)
Inductive exn :=
| ValueError (msg : string)
| UnicodeDecodeError
| TypeError
| NameError (name : string)
| IndexError
| OSError.

(** [isinstance(e, ValueError)]: [UnicodeDecodeError] is a subclass of
    [ValueError]. *)
Definition is_ValueError (e : exn) : bool :=
  match e with
  | ValueError _ | UnicodeDecodeError => true
  | _ => false
  end.

(** [run(["ssh", h, "ls"], ..., timeout=1)] either returns a completed
    process with its return code or raises [TimeoutExpired]. *)
Inductive probe :=
| Exited (returncode : Z)
| TimedOut.

(** What the script does to its surroundings, in the order it does it. *)
Inductive event :=
| EvOpen (path : string)
| EvSsh (host : string)
| EvWhich
| EvTmpCreate (name : string)
| EvTmpFlush (name : string)
| EvTmpDelete (name : string)
| EvPrint (line : string)
| EvExecv (path : pyval) (argv : list pyval).

(** The answers of the surroundings.  An ssh probe may answer
    differently each time: its answer depends on what happened before. *)
Record Env := mkEnv {
  ssh_ls : list event -> string -> probe;
  which_mpirun : Z * string;            (* return code, captured stdout *)
  sys_executable : string;
  execv_ok : pyval -> list pyval -> bool (* does the image get replaced? *)
}.

(** A file on disk, as reading it in text mode finds it: the text it
    gives, or bytes that do not decode in the encoding of the locale. *)
Inductive content :=
| Text (text : string)
| Undecodable.

(** The files on disk by path, and the trace so far. *)
Record World := mkWorld {
  files : gmap string content;
  trace : list event
}.

(** The parsed command line, as [build_parser] declares it. *)
Record Args := mkArgs {
  hosts : option string;
  hostfile : option string;
  env : list string;
  connections_per_peer : Z;
  skip_ssh_check : bool;
  skip_python_path : bool;
  cmd : list string
}.

(** ** Computations: state, exceptions, and process replacement *)

(** A computation returns, raises, or ends with the process image
    replaced ([os.execv] succeeded: nothing of the script runs after). *)
Inductive outcome (A : Type) :=
| Ret (a : A)
| Raise (e : exn)
| Replaced.
Arguments Ret {A} a.
Arguments Raise {A} e.
Arguments Replaced {A}.

(** A computation runs in a world and leaves one. *)
Definition M (A : Type) : Type := World -> outcome A * World.

#[export] Instance M_ret : MRet M := fun A a w => (Ret a, w).
#[export] Instance M_bind : MBind M := fun A B f m w =>
  match m w with
  | (Ret a, w') => f a w'
  | (Raise e, w') => (Raise e, w')
  | (Replaced, w') => (Replaced, w')
  end.

(** [raise e] *)
Definition raise {A} (e : exn) : M A := fun w => (Raise e, w).

(** An effect that always goes through: it is added to the trace. *)
Definition emit (ev : event) : M unit := fun w =>
  (Ret tt, mkWorld (files w) (trace w ++ [ev])).

(** [l.pop(0)] *)
Definition pop0 {A} (l : list A) : M (A * list A) :=
  match l with
  | x :: r => mret (x, r)
  | [] => raise IndexError
  end.

Section Launcher.

Variable E : Env.

(** *** parse_hosts *)

(** [open(path, "r")] followed by reading the text: [open] fails on a
    path that cannot be opened, reading fails on bytes that do not
    decode. *)
Definition open_read (path : string) : M string := fun w =>
  let w' := mkWorld (files w) (trace w ++ [EvOpen path]) in
  match files w !! path with
  | Some (Text text) => (Ret text, w')
  | Some Undecodable => (Raise UnicodeDecodeError, w')
  | None => (Raise OSError, w')
  end.

(** Lines 66-73 *)
Definition parse_hosts (args : Args) : M (list string) :=
  match hosts args with
  | Some hs => mret (PyStr.split "," hs)
  | None =>
      match hostfile args with
      | Some path =>
          text ← open_read path;
          mret (map PyStr.strip (PyStr.lines text))
      | None => raise (ValueError "Either --hosts or --hostfile need to be provided")
      end
  end.

(** *** check_connection *)

(** [run(["ssh", h, "ls"], stdout=DEVNULL, stderr=DEVNULL, timeout=1)] *)
Definition run_ssh (h : string) : M probe := fun w =>
  (Ret (ssh_ls E (trace w) h), mkWorld (files w) (trace w ++ [EvSsh h])).

(** The error of lines 84-87 *)
Definition connect_error (h : string) : exn :=
  ValueError ("Failed to connect to '" +:+ h +:+ "' via ssh. "
              +:+ "Make sure that '" +:+ h +:+ "' is accessible without a password.").

(** [success] is cleared by the [except TimeoutExpired] branch; the
    return code is read only when [success] still holds. *)
Fixpoint check_connection (hs : list string) : M unit :=
  match hs with
  | [] => mret tt
  | h :: rest =>
      r ← run_ssh h;
      match r with
      | TimedOut => raise (connect_error h)
      | Exited rc =>
          if negb (rc =? 0)%Z then raise (connect_error h)
          else check_connection rest
      end
  end.

(** *** get_mpirun *)

(** [run(["which", "mpirun"], capture_output=True)] *)
Definition run_which : M (Z * string) := fun w =>
  (Ret (which_mpirun E), mkWorld (files w) (trace w ++ [EvWhich])).

(** [capture_output=True] without [text=True]: [ret.stdout] is a
    [bytes] object, returned as it is. *)
Definition get_mpirun : M pyval :=
  r ← run_which;
  if negb (r.1 =? 0)%Z then
    raise (ValueError "Couldn't find 'mpirun' in the path. Make sure you have MPI installed.")
  else mret (PBytes r.2).

(** *** The blocks of main *)

(** Lines 112-113: the flag [skip_python_path] is not read. *)
Definition python_executable (executable : string) : string :=
  if String.eqb executable "python" then sys_executable E else executable.

(** [NamedTemporaryFile()]: a new, empty file under a name not in use,
    opened in the default mode ["w+b"]. *)
Definition tmp_create : M string := fun w =>
  let name := fresh_string "/tmp/tmp" (files w) in
  (Ret name, mkWorld (<[name := Text ""]> (files w)) (trace w ++ [EvTmpCreate name])).

(** Leaving the [with] block closes the file, which deletes it. *)
Definition tmp_close (name : string) : M unit := fun w =>
  (Ret tt, mkWorld (delete name (files w)) (trace w ++ [EvTmpDelete name])).

(** [with NamedTemporaryFile() as hostfile: body].  The file is closed
    when the body returns or raises; not when the body ended with the
    process image replaced. *)
Definition with_tmp {A} (body : string -> M A) : M A := fun w =>
  match tmp_create w with
  | (Ret name, w1) =>
      match body name w1 with
      | (Replaced, w2) => (Replaced, w2)
      | (r, w2) => (r, (tmp_close name w2).2)
      end
  | (Raise e, w1) => (Raise e, w1)
  | (Replaced, w1) => (Replaced, w1)
  end.

(** [hostfile.write(v)] on the binary file: [buf] is what has been
    written and not flushed yet.  A [str] is refused. *)
Definition tmp_write (buf : string) (v : pyval) : M string :=
  match v with
  | PBytes b => mret (buf +:+ b)
  | PStr _ => raise TypeError
  end.

(** What is in a file so far, as text. *)
Definition written (c : option content) : string :=
  match c with
  | Some (Text text) => text
  | _ => ""
  end.

(** [hostfile.flush()] *)
Definition tmp_flush (name buf : string) : M unit := fun w =>
  (Ret tt, mkWorld (<[name := Text (written (files w !! name) +:+ buf)]> (files w))
                   (trace w ++ [EvTmpFlush name])).

(** The line of one host, [f"{h} slots=1\n"]. *)
Definition slot_line (h : string) : string := h +:+ " slots=1" +:+ nl.

(** Lines 117-118 *)
Fixpoint write_hosts (buf : string) (hs : list string) {struct hs} : M string :=
  match hs with
  | [] => mret buf
  | h :: rest =>
      buf' ← tmp_write buf (PStr (slot_line h));
      write_hosts buf' rest
  end.

(** Line 122 reads the name [env], which is bound nowhere: it is not a
    local of [main], not a global of the module and not a builtin (the
    parsed entries are [args.env]). *)
Definition load_env : M (list pyval) := raise (NameError "env").

(** Lines 121-124, given the items the loop runs over. *)
Definition build_mpiargs (items : list pyval) (connections : Z) : list pyval :=
  let mpiargs := fold_left (fun acc e => acc ++ [PStr "-x"; e]) items [] in
  mpiargs ++ [PStr "--mca"; PStr "btl_tcp_links"; PStr (PyStr.of_int connections)].

(** Lines 126-134 *)
Definition build_run_args (mpirun : pyval) (mpiargs : list pyval)
    (name executable : string) (cmd : list string) : list pyval :=
  mpirun :: mpiargs
    ++ [PStr "--hostfile"; PStr name; PStr "--"; PStr executable]
    ++ map PStr cmd.

(** [''.join(l)]: every item has to be a [str]. *)
Fixpoint join (l : list pyval) : M string :=
  match l with
  | [] => mret ""
  | PStr s :: r => t ← join r; mret (s +:+ t)
  | PBytes _ :: _ => raise TypeError
  end.

(** [os.execv(path, argv)] *)
Definition execv (path : pyval) (argv : list pyval) : M unit :=
  match argv with
  | [] => raise (ValueError "execv() arg 2 must not be empty")
  | PStr "" :: _ | PBytes "" :: _ =>
      raise (ValueError "execv() arg 2 first element cannot be empty")
  | _ => fun w =>
      let w' := mkWorld (files w) (trace w ++ [EvExecv path argv]) in
      if execv_ok E path argv then (Replaced, w') else (Raise OSError, w')
  end.

(** Lines 135-136.  [run_args.pop(0)] is evaluated first; the second
    operand is the same list object, read after the pop. *)
Definition print_and_exec (run_args : list pyval) : M unit :=
  s ← join run_args;
  emit (EvPrint ("Running `" +:+ s +:+ "`"));;
  p ← pop0 run_args;
  execv p.1 p.2.

(** *** main *)

(** Lines 99-136.  [cmd] is the list object [args.cmd]; the pop of line
    111 takes its first item off. *)
Definition main (args : Args) : M unit :=
  hs ← parse_hosts args;
  (if negb (skip_ssh_check args) then check_connection hs else mret tt);;
  mpirun ← get_mpirun;
  p ← pop0 (cmd args);
  let executable := python_executable p.1 in
  let cmd := p.2 in
  with_tmp (fun name =>
    buf ← write_hosts "" hs;
    tmp_flush name buf;;
    items ← load_env;
    let mpiargs := build_mpiargs items (connections_per_peer args) in
    print_and_exec (build_run_args mpirun mpiargs name executable cmd)).

End Launcher.

(** ** Vocabulary of the statements *)

(** The answer to the probe of [h], issued as probe number [i] of a
    run over [hs] that started after the events [t]. *)
Definition answer (E : Env) (t : list event) (hs : list string) (i : nat) (h : string) : probe :=
  ssh_ls E (t ++ map EvSsh (take i hs)) h.

(** The world after the first [n] probes of [hs]. *)
Definition probed (w : World) (hs : list string) (n : nat) : World :=
  mkWorld (files w) (trace w ++ map EvSsh (take n hs)).


(** A host file of three lines: a host, a blank line, and a host with a
    space before it. *)
Definition hosts_txt : string := "h1" +:+ nl +:+ nl +:+ " h2" +:+ nl.

(** The lines that are not blank. *)
Definition nonblank (l : string) : bool := negb (String.eqb (PyStr.strip l) "").

(** A line without its terminator and what follows it. *)
Definition chomp (l : string) : string :=
  match PyStr.split "010" l with
  | s :: _ => s
  | [] => l
  end.

(** Opening the host file and probing a host: the events before the
    launcher is looked up. *)
Definition early (ev : event) : Prop :=
  match ev with
  | EvOpen _ | EvSsh _ => True
  | _ => False
  end.

(** The body of the [with] block of [main], lines 117-136. *)
Definition hostfile_block (E : Env) (args : Args) (hs : list string) (mpirun : pyval)
    (executable : string) (cmd : list string) (name : string) : M unit :=
  buf ← write_hosts "" hs;
  tmp_flush name buf;;
  items ← load_env;
  let mpiargs := build_mpiargs items (connections_per_peer args) in
  print_and_exec E (build_run_args mpirun mpiargs name executable cmd).

(** [main] from line 108 on, the host list in hand. *)
Definition after_hosts (E : Env) (args : Args) (hs : list string) : M unit :=
  mpirun ← get_mpirun E;
  p ← pop0 (cmd args);
  with_tmp (hostfile_block E args hs mpirun (python_executable E p.1) p.2).

(** How the block ends, and what it does on the way: with hosts to
    write, at the first write; with none, at the name [env]. *)
Definition block_error (hs : list string) : exn :=
  match hs with
  | [] => NameError "env"
  | _ :: _ => TypeError
  end.

(** What the block does to the file before it fails. *)
Definition block_events (hs : list string) (name : string) : list event :=
  match hs with
  | [] => [EvTmpFlush name]
  | _ :: _ => []
  end.

(** Sample surroundings: every host answers, the launcher is installed,
    and [os.execv] would succeed. *)
Definition E0 : Env :=
  mkEnv (fun _ _ => Exited 0) (0%Z, "/usr/bin/mpirun" +:+ nl) "/usr/bin/python3"
        (fun _ _ => true).

(** No files on disk, nothing done yet. *)
Definition W0 : World := mkWorld ∅ [].

(** [--hosts m1,m2 -- python train.py --epochs 3] *)
Definition A0 : Args :=
  mkArgs (Some "m1,m2") None [] 4 false false ["python"; "train.py"; "--epochs"; "3"].

(** The events of a launch: the message of line 135 and [os.execv]. *)
Definition launching (ev : event) : Prop :=
  match ev with
  | EvPrint _ | EvExecv _ _ => True
  | _ => False
  end.

(** The error of [get_mpirun]. *)
Definition not_found : exn :=
  ValueError "Couldn't find 'mpirun' in the path. Make sure you have MPI installed.".

(** A disk with an empty host file. *)
Definition empty_hostfile : World := mkWorld {[ "hosts.txt" := Text "" ]} [].

(** The list of lines 126-134 for the sample run. *)
Definition scenario_run_args : list pyval :=
  build_run_args (PBytes ("/usr/bin/mpirun" +:+ nl)) (build_mpiargs [] 4) "/tmp/tmp"
    (python_executable E0 "python") ["train.py"; "--epochs"; "3"].

(** [sep.join(l)] *)
Fixpoint join_with (sep : string) (l : list string) : string :=
  match l with
  | [] => EmptyString
  | x :: r =>
      match r with
      | [] => x
      | _ :: _ => x +:+ sep +:+ join_with sep r
      end
  end.

(** [s.count(c)] for one character *)
Fixpoint count_char (c : ascii) (s : string) : nat :=
  match s with
  | EmptyString => 0
  | String d r => (if Ascii.eqb d c then 1 else 0) + count_char c r
  end.

(** A string that is empty or starts with something that is no white
    space. *)
Definition starts_clean (s : string) : Prop :=
  match s with
  | EmptyString => True
  | String c _ => PyStr.isspace c = false
  end.

(** The events from the lookup of the launcher on, as a run can have
    them: none, the lookup alone, or the lookup and the temporary file
    made, flushed or not, and deleted. *)
Definition launch_events (rest : list event) : Prop :=
  rest = [] ∨ rest = [EvWhich]
  ∨ ∃ n, rest = [EvWhich; EvTmpCreate n; EvTmpDelete n]
         ∨ rest = [EvWhich; EvTmpCreate n; EvTmpFlush n; EvTmpDelete n].

(** The error of line 73. *)
Definition config_error : exn :=
  ValueError "Either --hosts or --hostfile need to be provided".

(** ** Properties *)

Example strip_ex : PyStr.strip ("  h1 " +:+ nl) = "h1".
Proof. reflexivity. Qed.
Example split_ex : PyStr.split "," "a,,b" = ["a"; ""; "b"].
Proof. reflexivity. Qed.
Example split_empty : PyStr.split "," "" = [""].
Proof. reflexivity. Qed.
Example lines_ex : PyStr.lines ("h1" +:+ nl +:+ nl +:+ "h2") = ["h1" +:+ nl; nl; "h2"].
Proof. reflexivity. Qed.
Example of_int_ex : PyStr.of_int 4 = "4" /\ PyStr.of_int 0 = "0" /\ PyStr.of_int (-12) = "-12".
Proof. repeat split; reflexivity. Qed.

(** ** Running computations *)

Lemma bind_run {A B} (m : M A) (f : A -> M B) (w : World) :
  (m ≫= f) w =
  match m w with
  | (Ret a, w') => f a w'
  | (Raise e, w') => (Raise e, w')
  | (Replaced, w') => (Replaced, w')
  end.
Proof. reflexivity. Qed.

Lemma ret_run {A} (a : A) (w : World) : mret (M := M) a w = (Ret a, w).
Proof. reflexivity. Qed.

Lemma world_eta (w : World) : mkWorld (files w) (trace w) = w.
Proof. by destruct w. Qed.

(** ** check_connection *)

Lemma answer_cons (E : Env) (t : list event) (g : string) (hs : list string) (i : nat) (h : string) :
  answer E t (g :: hs) (S i) h = answer E (t ++ [EvSsh g]) hs i h.
Proof. unfold answer. simpl. by rewrite <- app_assoc. Qed.

Lemma answer_0 (E : Env) (t : list event) (hs : list string) (h : string) :
  answer E t hs 0 h = ssh_ls E t h.
Proof. unfold answer. rewrite take_0. simpl. by rewrite app_nil_r. Qed.

(** Either every probe answers 0 and the check returns, or there is a
    first probe that does not and the check raises for its host. *)
Lemma check_connection_cases (E : Env) (hs : list string) (w : World) :
  ((∀ i h, hs !! i = Some h → answer E (trace w) hs i h = Exited 0)
   ∧ check_connection E hs w = (Ret tt, probed w hs (length hs)))
  ∨ (∃ i h, hs !! i = Some h
       ∧ (∀ j g, j < i → hs !! j = Some g → answer E (trace w) hs j g = Exited 0)
       ∧ answer E (trace w) hs i h ≠ Exited 0
       ∧ check_connection E hs w = (Raise (connect_error h), probed w hs (S i))).
Proof.
  revert w. induction hs as [|g hs IH]; intros w.
  - left. split; [intros i h Hi; by rewrite lookup_nil in Hi|].
    unfold probed. simpl. rewrite app_nil_r. by rewrite world_eta.
  - simpl check_connection. rewrite bind_run. unfold run_ssh.
    set (w1 := mkWorld (files w) (trace w ++ [EvSsh g])).
    assert (Hfail : ssh_ls E (trace w) g ≠ Exited 0 →
              ∃ i h, (g :: hs) !! i = Some h
                ∧ (∀ j g', j < i → (g :: hs) !! j = Some g' →
                     answer E (trace w) (g :: hs) j g' = Exited 0)
                ∧ answer E (trace w) (g :: hs) i h ≠ Exited 0
                ∧ (Raise (connect_error g), w1)
                  = (Raise (A := unit) (connect_error h), probed w (g :: hs) (S i))).
    { intros Hne. exists 0, g. split; [done|]. split; [intros j g' Hj; lia|].
      split; [by rewrite answer_0|]. unfold probed. simpl. by rewrite ?take_0. }
    destruct (ssh_ls E (trace w) g) as [rc|] eqn:Hans.
    + destruct (Z.eqb_spec rc 0) as [->|Hrc]; simpl.
      * destruct (IH w1) as [[Hall Hrun]|(i & h & Hi & Hbefore & Hbad & Hrun)].
        -- left. split.
           ++ intros [|i] h Hi.
              ** simpl in Hi. injection Hi as <-. by rewrite answer_0.
              ** rewrite answer_cons. by apply Hall.
           ++ rewrite Hrun. unfold probed, w1. simpl. by rewrite <- app_assoc.
        -- right. exists (S i), h. split; [done|]. split; [|split].
           ++ intros [|j] g' Hj Hg'.
              ** simpl in Hg'. injection Hg' as <-. by rewrite answer_0.
              ** rewrite answer_cons. apply Hbefore; [lia|done].
           ++ by rewrite answer_cons.
           ++ rewrite Hrun. unfold probed, w1. simpl. by rewrite <- app_assoc.
      * right. apply Hfail. congruence.
    + right. apply Hfail. congruence.
Qed.



(** The second of three hosts times out: its name is in the error and
    the third host is not probed. *)
Example check_connection_timeout :
  check_connection
    (mkEnv (fun t h => if String.eqb h "m2" then TimedOut else Exited 0)
           (0%Z, "") "python3" (fun _ _ => true))
    ["m1"; "m2"; "m3"] W0
  = (Raise (connect_error "m2"), mkWorld ∅ [EvSsh "m1"; EvSsh "m2"]).
Proof. reflexivity. Qed.

(** The same host asked twice may answer differently; a non-zero return
    code at the second probe ends the check like a timeout does. *)
Example check_connection_nonzero :
  check_connection
    (mkEnv (fun t h => match t with [] => Exited 0 | _ => Exited 255 end)
           (0%Z, "") "python3" (fun _ _ => true))
    ["m2"; "m2"; "m3"] W0
  = (Raise (connect_error "m2"), mkWorld ∅ [EvSsh "m2"; EvSsh "m2"]).
Proof. reflexivity. Qed.

(** ** parse_hosts *)

(** C3, as amended: the configuration error of [parse_hosts] is raised
    exactly when neither [--hosts] nor [--hostfile] is given.  With
    [--hosts] given the comma-separated list is returned and nothing is
    opened, whether or not [--hostfile] is given too.  With only
    [--hostfile] given the file is opened: its text gives a list; when
    it cannot be opened the error of [open] goes on, and when its bytes
    do not decode a [UnicodeDecodeError] does.  That one is a
    [ValueError] too, so an exception that is a [ValueError] is raised
    exactly when no source is given or the only one is a host file that
    does not decode. *)
Theorem parse_hosts_outcomes (args : Args) (w : World) :
  ((∃ w', parse_hosts args w = (Raise config_error, w'))
   ↔ hosts args = None ∧ hostfile args = None)
  ∧ (∀ hs, hosts args = Some hs →
       parse_hosts args w = (Ret (PyStr.split "," hs), w))
  ∧ (∀ path, hosts args = None → hostfile args = Some path →
       parse_hosts args w
       = (match files w !! path with
          | Some (Text text) => Ret (map PyStr.strip (PyStr.lines text))
          | Some Undecodable => Raise UnicodeDecodeError
          | None => Raise OSError
          end,
          mkWorld (files w) (trace w ++ [EvOpen path])))
  ∧ ((∃ e w', parse_hosts args w = (Raise e, w') ∧ is_ValueError e = true)
     ↔ hosts args = None
       ∧ (hostfile args = None
          ∨ ∃ path, hostfile args = Some path ∧ files w !! path = Some Undecodable)).
Proof.
  assert (Hfile : ∀ path, hosts args = None → hostfile args = Some path →
            parse_hosts args w
            = (match files w !! path with
               | Some (Text text) => Ret (map PyStr.strip (PyStr.lines text))
               | Some Undecodable => Raise UnicodeDecodeError
               | None => Raise OSError
               end,
               mkWorld (files w) (trace w ++ [EvOpen path]))).
  { intros path Hh Hf. unfold parse_hosts. rewrite Hh, Hf, bind_run. unfold open_read.
    by destruct (files w !! path) as [[text|]|]. }
  split; [|split; [|split; [exact Hfile|]]].
  - destruct (hosts args) as [hs|] eqn:Hh.
    + split; [|intros [H _]; discriminate H].
      intros [w' H]. unfold parse_hosts in H. rewrite Hh in H. discriminate H.
    + destruct (hostfile args) as [path|] eqn:Hf.
      * split; [|intros [_ H]; discriminate H].
        intros [w' H]. rewrite (Hfile path eq_refl eq_refl) in H.
        destruct (files w !! path) as [[text|]|]; discriminate H.
      * split; [done|]. intros _. exists w. unfold parse_hosts. by rewrite Hh, Hf.
  - intros hs Hh. unfold parse_hosts. by rewrite Hh.
  - destruct (hosts args) as [hs|] eqn:Hh.
    + split; [|intros [H _]; discriminate H].
      intros (e & w' & H & _). unfold parse_hosts in H. rewrite Hh in H. discriminate H.
    + destruct (hostfile args) as [path|] eqn:Hf.
      * rewrite (Hfile path eq_refl eq_refl). split.
        -- intros (e & w' & H & He). split; [done|]. right. exists path. split; [done|].
           destruct (files w !! path) as [[text|]|]; [discriminate H|done|].
           injection H as <- _. discriminate He.
        -- intros [_ [H|(path' & [= <-] & Hbytes)]]; [discriminate H|].
           rewrite Hbytes. by eexists _, _.
      * split; [intros _; split; [done|by left]|]. intros _.
        exists config_error, w. unfold parse_hosts. by rewrite Hh, Hf.
Qed.

(** A host file whose bytes do not decode: the error is not the
    configuration error, and it is a [ValueError] all the same. *)
Example parse_hosts_undecodable :
  parse_hosts (mkArgs None (Some "hosts.bin") [] 4 false false ["echo"])
              (mkWorld {[ "hosts.bin" := Undecodable ]} [])
  = (Raise UnicodeDecodeError,
     mkWorld {[ "hosts.bin" := Undecodable ]} [EvOpen "hosts.bin"])
  ∧ UnicodeDecodeError ≠ config_error
  ∧ is_ValueError UnicodeDecodeError = true.
Proof. by repeat split. Qed.

(** C3, the claim as stated fails: with both sources given the inline
    list is returned and no error is raised. *)
Lemma parse_hosts_both_given :
  let args := mkArgs (Some "a,b") (Some "hosts.txt") [] 4 false false ["echo"] in
  let w := mkWorld ∅ [] in
  is_Some (hosts args) ∧ is_Some (hostfile args)
  ∧ parse_hosts args w = (Ret ["a"; "b"], w).
Proof. repeat split; eauto. Qed.

(** *** Reading the host file *)

Section Strip.

Import PyStr.

Lemma append_cons (c : ascii) (r t : string) : String c r +:+ t = String c (r +:+ t).
Proof. reflexivity. Qed.

Lemma lstrip_length (s : string) : String.length (lstrip s) ≤ String.length s.
Proof.
  induction s as [|c r IH]; simpl; [done|].
  destruct (isspace c); simpl; lia.
Qed.

Lemma rstrip_length (s : string) : String.length (rstrip s) ≤ String.length s.
Proof.
  induction s as [|c r IH]; simpl; [done|].
  destruct (rstrip r); [destruct (isspace c)|]; simpl in *; lia.
Qed.

Lemma lstrip_fixed (s : string) :
  String.length (lstrip s) = String.length s → lstrip s = s.
Proof.
  destruct s as [|c r]; simpl; [done|].
  destruct (isspace c); [|done].
  pose proof (lstrip_length r). lia.
Qed.

Lemma strip_fixed (s : string) : strip s = s → lstrip s = s ∧ rstrip s = s.
Proof.
  unfold strip. intros H.
  assert (Hl : lstrip s = s).
  { apply lstrip_fixed. pose proof (lstrip_length s).
    pose proof (rstrip_length (lstrip s)). rewrite H in *. lia. }
  by rewrite Hl in H.
Qed.

(** The line terminator is white space, so stripping on the right
    takes it away. *)
Lemma rstrip_terminator (s : string) : rstrip (s +:+ nl) = rstrip s.
Proof.
  induction s as [|c r IH]; [done|].
  rewrite append_cons. simpl. by rewrite IH.
Qed.

Lemma strip_terminated (s : string) : strip s = s → strip (s +:+ nl) = s.
Proof.
  intros H. destruct (strip_fixed s H) as [Hl Hr]. unfold strip.
  destruct s as [|c r]; [done|].
  rewrite append_cons. simpl in Hl |- *.
  destruct (isspace c).
  - pose proof (lstrip_length r) as Hlen. rewrite Hl in Hlen. simpl in Hlen. lia.
  - by rewrite <- append_cons, rstrip_terminator.
Qed.

End Strip.

(** C7, as amended: read from a host file, the list has one entry for
    every line of the file, blank lines included, in file order, and
    each entry is its line without the white space at both ends, the
    line terminator being part of it.  A line that is an identifier with
    no white space around it, followed by the terminator, gives that
    identifier. *)
Theorem parse_hosts_hostfile (args : Args) (w : World) (path text : string) :
  hosts args = None → hostfile args = Some path → files w !! path = Some (Text text) →
  ∃ hl w',
    parse_hosts args w = (Ret hl, w')
    ∧ length hl = length (PyStr.lines text)
    ∧ (∀ i l, PyStr.lines text !! i = Some l → hl !! i = Some (PyStr.strip l))
    ∧ (∀ i s, PyStr.lines text !! i = Some (s +:+ nl) → PyStr.strip s = s →
         hl !! i = Some s).
Proof.
  intros Hh Hf Htext. unfold parse_hosts. rewrite Hh, Hf, bind_run.
  unfold open_read. rewrite Htext.
  eexists _, _. split; [reflexivity|]. split; [by rewrite length_map|].
  assert (Hentry : ∀ i l, PyStr.lines text !! i = Some l →
            map PyStr.strip (PyStr.lines text) !! i = Some (PyStr.strip l)).
  { intros i l Hl. change (map PyStr.strip) with (fmap (M := list) PyStr.strip).
    by rewrite list_lookup_fmap, Hl. }
  split; [done|].
  intros i s Hl Hs. rewrite (Hentry i _ Hl). by rewrite strip_terminated.
Qed.

Lemma parse_hosts_hostfile_witness :
  ∃ hl w',
    parse_hosts (mkArgs None (Some "hosts.txt") [] 4 false false ["echo"])
                (mkWorld {[ "hosts.txt" := Text hosts_txt ]} []) = (Ret hl, w')
    ∧ length hl = length (PyStr.lines hosts_txt)
    ∧ (∀ i l, PyStr.lines hosts_txt !! i = Some l → hl !! i = Some (PyStr.strip l))
    ∧ (∀ i s, PyStr.lines hosts_txt !! i = Some (s +:+ nl) → PyStr.strip s = s →
         hl !! i = Some s).
Proof.
  apply (parse_hosts_hostfile
           (mkArgs None (Some "hosts.txt") [] 4 false false ["echo"])
           (mkWorld {[ "hosts.txt" := Text hosts_txt ]} []) "hosts.txt" hosts_txt);
    reflexivity.
Defined.

(** C7, the claim as stated fails: a file with two non-blank lines and a
    blank one between them gives three entries, the second one empty;
    and white space before an identifier is removed, too. *)
Lemma parse_hosts_blank_line :
  let w := mkWorld {[ "hosts.txt" := Text hosts_txt ]} [] in
  let args := mkArgs None (Some "hosts.txt") [] 4 false false ["echo"] in
  ∃ w', parse_hosts args w = (Ret ["h1"; ""; "h2"], w')
    ∧ List.filter nonblank (PyStr.lines hosts_txt) = ["h1" +:+ nl; " h2" +:+ nl]
    ∧ map chomp (List.filter nonblank (PyStr.lines hosts_txt)) = ["h1"; " h2"]
    ∧ length ["h1"; ""; "h2"] ≠ length (List.filter nonblank (PyStr.lines hosts_txt)).
Proof.
  eexists. split; [reflexivity|]. split; [reflexivity|]. split; [reflexivity|].
  vm_compute. lia.
Qed.

(** ** The runs of main *)

Lemma main_unfold (E : Env) (args : Args) :
  main E args =
  (hs ← parse_hosts args;
   (if negb (skip_ssh_check args) then check_connection E hs else mret tt);;
   after_hosts E args hs).
Proof. reflexivity. Qed.

Lemma Forall_early_ssh (hs : list string) : Forall early (map EvSsh hs).
Proof. induction hs; by constructor. Qed.

Lemma parse_hosts_run (args : Args) (w : World) :
  ∃ r pre, parse_hosts args w = (r, mkWorld (files w) (trace w ++ pre))
           ∧ Forall early pre ∧ r ≠ Replaced.
Proof.
  unfold parse_hosts. destruct (hosts args) as [hs|].
  - exists (Ret (PyStr.split "," hs)), []. rewrite app_nil_r, world_eta. by repeat split.
  - destruct (hostfile args) as [path|].
    + rewrite bind_run. unfold open_read. destruct (files w !! path) as [[text|]|].
      * exists (Ret (map PyStr.strip (PyStr.lines text))), [EvOpen path].
        repeat split; [|done]. by repeat constructor.
      * exists (Raise UnicodeDecodeError), [EvOpen path].
        repeat split; [|done]. by repeat constructor.
      * exists (Raise OSError), [EvOpen path]. repeat split; [|done]. by repeat constructor.
    + eexists (Raise _), []. rewrite app_nil_r, world_eta. by repeat split.
Qed.

Lemma check_connection_run (E : Env) (hs : list string) (w : World) :
  ∃ r pre, check_connection E hs w = (r, mkWorld (files w) (trace w ++ pre))
           ∧ Forall early pre ∧ r ≠ Replaced.
Proof.
  destruct (check_connection_cases E hs w)
    as [[_ Hrun]|(i & h & _ & _ & _ & Hrun)]; rewrite Hrun; unfold probed.
  - eexists (Ret tt), _. split; [done|]. split; [apply Forall_early_ssh|done].
  - eexists (Raise _), _. split; [done|]. split; [apply Forall_early_ssh|done].
Qed.

(** A run of [main] stops before the launcher is looked up, all its
    events early ones, or goes on from line 108 after such events. *)
Lemma main_stages (E : Env) (args : Args) (w : World) :
  ∃ pre, Forall early pre
    ∧ ((∃ e, main E args w = (Raise e, mkWorld (files w) (trace w ++ pre)))
       ∨ (∃ hs, main E args w
                = after_hosts E args hs (mkWorld (files w) (trace w ++ pre)))).
Proof.
  rewrite main_unfold, bind_run.
  destruct (parse_hosts_run args w) as (r & pre & -> & Hpre & Hr).
  destruct r as [hs|e|]; [|exists pre; split; [done|left; by exists e]|done].
  rewrite bind_run. destruct (skip_ssh_check args); cbn [negb].
  - rewrite ret_run. exists pre. split; [done|]. right. by exists hs.
  - destruct (check_connection_run E hs (mkWorld (files w) (trace w ++ pre)))
      as (r & pre' & -> & Hpre' & Hr').
    simpl files; simpl trace. rewrite <- app_assoc.
    exists (pre ++ pre'). split; [by apply Forall_app|].
    destruct r as [[]|e|]; [right; by exists hs|left; by exists e|done].
Qed.

Lemma hostfile_block_run (E : Env) (args : Args) (hs : list string) (mpirun : pyval)
    (executable : string) (cmd : list string) (name : string) (w : World) :
  ∃ fs, hostfile_block E args hs mpirun executable cmd name w
        = (Raise (block_error hs), mkWorld fs (trace w ++ block_events hs name))
        ∧ delete name fs = delete name (files w).
Proof.
  destruct hs as [|h hs].
  - eexists. split; [reflexivity|]. apply delete_insert_eq.
  - exists (files w). simpl block_events. by rewrite app_nil_r, world_eta.
Qed.

(** From line 108 on: the launcher is not found, or the command is
    empty, or the temporary file is created, the block fails in it, and
    the file is deleted again. *)
Lemma after_hosts_run (E : Env) (args : Args) (hs : list string) (w : World) :
  after_hosts E args hs w =
  if negb ((which_mpirun E).1 =? 0)%Z then
    (Raise (ValueError "Couldn't find 'mpirun' in the path. Make sure you have MPI installed."),
     mkWorld (files w) (trace w ++ [EvWhich]))
  else
    match cmd args with
    | [] => (Raise IndexError, mkWorld (files w) (trace w ++ [EvWhich]))
    | _ :: _ =>
        let name := fresh_string "/tmp/tmp" (files w) in
        (Raise (block_error hs),
         mkWorld (files w)
                 (trace w ++ [EvWhich] ++ [EvTmpCreate name] ++ block_events hs name
                          ++ [EvTmpDelete name]))
    end.
Proof.
  unfold after_hosts. rewrite bind_run. unfold get_mpirun. rewrite bind_run.
  unfold run_which. destruct (negb ((which_mpirun E).1 =? 0)%Z); [done|].
  rewrite ret_run, bind_run. destruct (cmd args) as [|c cs]; [done|].
  simpl pop0. rewrite ret_run. unfold with_tmp, tmp_create. simpl files; simpl trace.
  set (name := fresh_string "/tmp/tmp" (files w)).
  match goal with |- context [hostfile_block ?E ?a ?h ?m ?x ?c ?n ?w1] =>
    destruct (hostfile_block_run E a h m x c n w1) as (fs & -> & Hfs) end.
  unfold tmp_close. simpl. f_equal. f_equal.
  - rewrite Hfs. simpl files. rewrite delete_insert_eq. apply delete_id, fresh_string_fresh.
  - by rewrite <- !app_assoc.
Qed.

(** Every run of [main], by where it ends.  No run ends in a return or in
    the process image replaced, and the files on disk are those of the
    start. *)
Lemma main_run (E : Env) (args : Args) (w : World) :
  ∃ pre, Forall early pre
    ∧ ((∃ e, main E args w = (Raise e, mkWorld (files w) (trace w ++ pre)))
       ∨ ((which_mpirun E).1 ≠ 0%Z
          ∧ main E args w = (Raise not_found, mkWorld (files w) (trace w ++ pre ++ [EvWhich])))
       ∨ ((which_mpirun E).1 = 0%Z ∧ cmd args = []
          ∧ main E args w = (Raise IndexError, mkWorld (files w) (trace w ++ pre ++ [EvWhich])))
       ∨ ((which_mpirun E).1 = 0%Z
          ∧ ∃ hs, main E args w
                  = (Raise (block_error hs),
                     mkWorld (files w)
                       (trace w ++ pre ++ [EvWhich]
                          ++ [EvTmpCreate (fresh_string "/tmp/tmp" (files w))]
                          ++ block_events hs (fresh_string "/tmp/tmp" (files w))
                          ++ [EvTmpDelete (fresh_string "/tmp/tmp" (files w))])))).
Proof.
  destruct (main_stages E args w) as (pre & Hpre & [[e He]|[hs Hhs]]);
    exists pre; (split; [done|]); [by left; exists e|].
  right. rewrite Hhs, after_hosts_run. simpl files; simpl trace.
  destruct (Z.eqb_spec (which_mpirun E).1 0) as [Hrc|Hrc]; cbn [negb].
  - right. destruct (cmd args) as [|c cs].
    + left. by rewrite <- app_assoc.
    + right. split; [done|]. exists hs. by rewrite <- app_assoc.
  - left. split; [done|]. by rewrite <- app_assoc.
Qed.

Lemma early_not_launching (pre : list event) :
  Forall early pre → Forall (fun ev => ¬ launching ev) pre.
Proof.
  intros Hpre. eapply Forall_impl; [exact Hpre|].
  intros ev Hearly Hlaunch. by destruct ev.
Qed.

(** X6: no run of [main] gets to the message of line 135 or to [os.execv]:
    every run ends in an exception, the files on disk as they were. *)
Lemma main_never_launches (E : Env) (args : Args) (w : World) :
  ∃ e evs, main E args w = (Raise e, mkWorld (files w) (trace w ++ evs))
           ∧ Forall (fun ev => ¬ launching ev) evs.
Proof.
  destruct (main_run E args w)
    as (pre & Hpre%early_not_launching
        & [[e He]|[[_ He]|[(_ & _ & He)|(_ & hs & He)]]]);
    eexists _, _; (split; [exact He|]); [done| | |].
  - apply Forall_app. split; [done|]. repeat constructor; by intros [].
  - apply Forall_app. split; [done|]. repeat constructor; by intros [].
  - apply Forall_app. split; [done|]. destruct hs; repeat constructor; by intros [].
Qed.

Lemma early_not_create (pre : list event) (name : string) :
  Forall early pre → EvTmpCreate name ∉ pre.
Proof.
  intros Hpre Hin. rewrite Forall_forall in Hpre. by apply Hpre in Hin.
Qed.

Lemma block_events_not_create (hs : list string) (n name : string) :
  EvTmpCreate name ∉ block_events hs n.
Proof.
  destruct hs; simpl; [|apply not_elem_of_nil].
  intros Hin. apply list_elem_of_singleton in Hin. discriminate Hin.
Qed.

(** C9: the launcher is looked up before the temporary file is created.
    In every run, a creation of the temporary file comes after the
    lookup, which succeeded; when the lookup fails, no temporary file is
    created, the files on disk are unchanged, and a run that got as far
    as the lookup ends in the launcher-not-found error. *)
Theorem launcher_located_before_tmpfile (E : Env) (args : Args) (w w' : World)
    (r : outcome unit) :
  main E args w = (r, w') →
  ∃ evs, trace w' = trace w ++ evs
    ∧ (∀ pre name post, evs = pre ++ EvTmpCreate name :: post →
         EvWhich ∈ pre ∧ (which_mpirun E).1 = 0%Z)
    ∧ ((which_mpirun E).1 ≠ 0%Z →
         files w' = files w
         ∧ (∀ name, EvTmpCreate name ∉ evs)
         ∧ (EvWhich ∈ evs → r = Raise not_found)).
Proof.
  intros Hrun.
  destruct (main_run E args w)
    as (pre0 & Hpre & [[e He]|[[Hrc He]|[(Hrc & Hcmd & He)|(Hrc & hs & He)]]]);
    rewrite He in Hrun; injection Hrun as <- <-; simpl trace; simpl files.
  - exists pre0. split; [done|]. split.
    + intros pre name post ->. destruct (early_not_create _ name Hpre). set_solver.
    + intros _. split; [done|]. split; [intros name; by apply early_not_create|].
      intros Hin. rewrite Forall_forall in Hpre. by apply Hpre in Hin.
  - exists (pre0 ++ [EvWhich]). split; [done|]. split.
    + intros pre name post Heq.
      assert (Hin : EvTmpCreate name ∈ pre0 ++ [EvWhich]) by (rewrite Heq; set_solver).
      apply elem_of_app in Hin as [Hin|Hin]; [by destruct (early_not_create _ name Hpre)|].
      apply list_elem_of_singleton in Hin. discriminate Hin.
    + intros _. split; [done|]. split; [|done].
      intros name Hin.
      apply elem_of_app in Hin as [Hin|Hin]; [by destruct (early_not_create _ name Hpre)|].
      apply list_elem_of_singleton in Hin. discriminate Hin.
  - exists (pre0 ++ [EvWhich]). split; [done|]. split; [|by intros Hne].
    intros pre name post Heq.
    assert (Hin : EvTmpCreate name ∈ pre0 ++ [EvWhich]) by (rewrite Heq; set_solver).
    apply elem_of_app in Hin as [Hin|Hin]; [by destruct (early_not_create _ name Hpre)|].
    apply list_elem_of_singleton in Hin. discriminate Hin.
  - eexists. split; [reflexivity|]. split; [|by intros Hne].
    intros pre name post Heq. split; [|done].
    apply app_eq_app in Heq as [l [[-> Heq]|[-> Heq]]].
    + destruct l as [|ev l]; [discriminate Heq|].
      injection Heq as <- _.
      destruct (early_not_create _ name Hpre). set_solver.
    + destruct l as [|ev l]; [discriminate Heq|].
      injection Heq as <- _. set_solver.
Qed.

Lemma launcher_located_before_tmpfile_witness :
  ∃ evs, trace (mkWorld ∅ [EvSsh "m1"; EvSsh "m2"; EvWhich])
         = trace W0 ++ evs
    ∧ (∀ pre name post, evs = pre ++ EvTmpCreate name :: post →
         EvWhich ∈ pre ∧ (which_mpirun (mkEnv (fun _ _ => Exited 0) (1%Z, "") "python3"
                                              (fun _ _ => true))).1 = 0%Z)
    ∧ ((which_mpirun (mkEnv (fun _ _ => Exited 0) (1%Z, "") "python3"
                            (fun _ _ => true))).1 ≠ 0%Z →
         files (mkWorld ∅ [EvSsh "m1"; EvSsh "m2"; EvWhich]) = files W0
         ∧ (∀ name, EvTmpCreate name ∉ evs)
         ∧ (EvWhich ∈ evs → Raise (A := unit) not_found = Raise not_found)).
Proof.
  apply (launcher_located_before_tmpfile
           (mkEnv (fun _ _ => Exited 0) (1%Z, "") "python3" (fun _ _ => true)) A0 W0).
  reflexivity.
Defined.

(** The scoped file, whatever the block does: when the block raises,
    the file created for it is gone afterwards. *)
Lemma with_tmp_raise_deletes {A} (body : string → M A) (w w' : World) (e : exn) :
  with_tmp body w = (Raise e, w') →
  files w' !! fresh_string "/tmp/tmp" (files w) = None
  ∧ ∃ w2, body (fresh_string "/tmp/tmp" (files w)) (tmp_create w).2 = (Raise e, w2)
          ∧ trace w' = trace w2 ++ [EvTmpDelete (fresh_string "/tmp/tmp" (files w))].
Proof.
  unfold with_tmp, tmp_create. simpl.
  destruct (body _ _) as [[a|e'|] w2]; intros H; [discriminate H| |discriminate H].
  injection H as -> <-. simpl. split; [apply lookup_delete_eq|]. by exists w2.
Qed.

(** C8: a run of [main] that ends in an error leaves no temporary file.
    Every temporary file the run created is deleted as the last thing
    the run does, and no file of its name is on disk afterwards. *)
Theorem tmpfile_deleted_on_failure (E : Env) (args : Args) (w w' : World) (e : exn) :
  main E args w = (Raise e, w') →
  ∃ evs, trace w' = trace w ++ evs
    ∧ ∀ name, EvTmpCreate name ∈ evs →
        files w' !! name = None
        ∧ ∃ pre mid, evs = pre ++ EvTmpCreate name :: mid ++ [EvTmpDelete name].
Proof.
  intros Hrun.
  destruct (main_run E args w)
    as (pre0 & Hpre & [[e' He]|[[Hrc He]|[(Hrc & Hcmd & He)|(Hrc & hs & He)]]]);
    rewrite He in Hrun; injection Hrun as <- <-; simpl trace; simpl files.
  - exists pre0. split; [done|]. intros name Hin.
    by destruct (early_not_create _ name Hpre).
  - exists (pre0 ++ [EvWhich]). split; [done|]. intros name Hin.
    apply elem_of_app in Hin as [Hin|Hin]; [by destruct (early_not_create _ name Hpre)|].
    apply list_elem_of_singleton in Hin. discriminate Hin.
  - exists (pre0 ++ [EvWhich]). split; [done|]. intros name Hin.
    apply elem_of_app in Hin as [Hin|Hin]; [by destruct (early_not_create _ name Hpre)|].
    apply list_elem_of_singleton in Hin. discriminate Hin.
  - set (n := fresh_string "/tmp/tmp" (files w)).
    eexists. split; [reflexivity|]. intros name Hin.
    assert (name = n) as ->.
    { apply elem_of_app in Hin as [Hin|Hin]; [by destruct (early_not_create _ name Hpre)|].
      apply elem_of_cons in Hin as [Hin|Hin]; [discriminate Hin|].
      apply elem_of_cons in Hin as [Hin|Hin]; [by injection Hin|].
      apply elem_of_app in Hin as [Hin|Hin];
        [by destruct (block_events_not_create hs n name)|].
      apply list_elem_of_singleton in Hin. discriminate Hin. }
    split; [apply fresh_string_fresh|].
    exists (pre0 ++ [EvWhich]), (block_events hs n). by rewrite <- app_assoc.
Qed.

Lemma tmpfile_deleted_on_failure_witness :
  ∃ evs,
    trace (mkWorld ∅ [EvSsh "m1"; EvSsh "m2"; EvWhich; EvTmpCreate "/tmp/tmp";
                      EvTmpDelete "/tmp/tmp"]) = trace W0 ++ evs
    ∧ ∀ name, EvTmpCreate name ∈ evs →
        files (mkWorld ∅ [EvSsh "m1"; EvSsh "m2"; EvWhich; EvTmpCreate "/tmp/tmp";
                          EvTmpDelete "/tmp/tmp"]) !! name = None
        ∧ ∃ pre mid, evs = pre ++ EvTmpCreate name :: mid ++ [EvTmpDelete name].
Proof.
  apply (tmpfile_deleted_on_failure E0 A0 W0 _ TypeError). reflexivity.
Defined.

(** ** The blocks of main at concrete inputs *)

(** C1: the code at the failing input.  Lines 111-113 replace a leading
    [python] by the running interpreter also when [--skip-python-path]
    is set: the flag is not read. *)
Theorem skip_python_path_not_read (E : Env) (rest : list string) (w : World) :
  let args := mkArgs (Some "m1") None [] 4 false true ("python" :: rest) in
  skip_python_path args = true
  ∧ (p ← pop0 (cmd args); mret (python_executable E p.1, p.2)) w
    = (Ret (sys_executable E, rest), w).
Proof. split; reflexivity. Qed.

Lemma extend_pairs (items acc : list pyval) :
  fold_left (fun acc e => acc ++ [PStr "-x"; e]) items acc
  = acc ++ flat_map (fun e => [PStr "-x"; e]) items.
Proof.
  revert acc. induction items as [|e items IH]; intros acc; simpl.
  - by rewrite app_nil_r.
  - by rewrite IH, <- app_assoc.
Qed.

(** The flags of lines 121-124 for the items the loop runs over: a pair
    for each, in order, then the one group for the connections. *)
Lemma build_mpiargs_pairs (items : list pyval) (connections : Z) :
  build_mpiargs items connections
  = flat_map (fun e => [PStr "-x"; e]) items
    ++ [PStr "--mca"; PStr "btl_tcp_links"; PStr (PyStr.of_int connections)].
Proof. unfold build_mpiargs. by rewrite extend_pairs. Qed.

(** C2: the code at the failing input.  With an [--env] entry given and
    an empty host file, the run gets to line 122 and ends there in a
    [NameError] for [env]; nothing is printed and nothing is launched.
    The entries themselves, read from [args.env], would give the pair
    and the group. *)
Theorem env_name_not_bound :
  let args := mkArgs None (Some "hosts.txt") ["A=1"] 4 false false ["echo"] in
  main E0 args empty_hostfile
  = (Raise (NameError "env"),
     mkWorld {[ "hosts.txt" := Text "" ]}
       [EvOpen "hosts.txt"; EvWhich; EvTmpCreate "/tmp/tmp"; EvTmpFlush "/tmp/tmp";
        EvTmpDelete "/tmp/tmp"])
  ∧ build_mpiargs (map PStr (env args)) (connections_per_peer args)
    = [PStr "-x"; PStr "A=1"; PStr "--mca"; PStr "btl_tcp_links"; PStr "4"].
Proof. split; reflexivity. Qed.

Lemma write_hosts_refused (buf h : string) (hs : list string) (w : World) :
  write_hosts buf (h :: hs) w = (Raise TypeError, w).
Proof. reflexivity. Qed.

(** C5: the code at the failing input.  For the hosts [h1] and [h2] the
    first write is refused, the file being a binary one and the line a
    [str]: the run ends in a [TypeError], the file is never flushed and
    is deleted empty.  The two lines handed to [write] are the ones the
    format asks for. *)
Theorem hostfile_lines_not_written :
  let args := mkArgs (Some "h1,h2") None [] 4 true false ["echo"] in
  main E0 args W0
  = (Raise TypeError, mkWorld ∅ [EvWhich; EvTmpCreate "/tmp/tmp"; EvTmpDelete "/tmp/tmp"])
  ∧ write_hosts "" ["h1"; "h2"] W0 = (Raise TypeError, W0)
  ∧ slot_line "h1" +:+ slot_line "h2"
    = "h1 slots=1" +:+ nl +:+ "h2 slots=1" +:+ nl.
Proof. repeat split; reflexivity. Qed.

(** C6: the code at the failing input.  In the scenario the run ends in
    a [TypeError] at the first write to the host file and [os.execv] is
    never called.  The list of lines 126-134 has the order the claim
    gives; joining it for the message is refused, its first item being
    a [bytes] object; and line 136 pops the launcher path off the list
    before the list is passed on, so the vector it would pass starts
    with [--mca]. *)
Theorem scenario_not_launched :
  main E0 A0 W0
  = (Raise TypeError,
     mkWorld ∅ [EvSsh "m1"; EvSsh "m2"; EvWhich; EvTmpCreate "/tmp/tmp";
                EvTmpDelete "/tmp/tmp"])
  ∧ scenario_run_args
    = [PBytes ("/usr/bin/mpirun" +:+ nl); PStr "--mca"; PStr "btl_tcp_links"; PStr "4";
       PStr "--hostfile"; PStr "/tmp/tmp"; PStr "--";
       PStr "/usr/bin/python3"; PStr "train.py"; PStr "--epochs"; PStr "3"]
  ∧ print_and_exec E0 scenario_run_args W0 = (Raise TypeError, W0)
  ∧ (p ← pop0 scenario_run_args; execv E0 p.1 p.2) W0
    = (Replaced,
       mkWorld ∅ [EvExecv (PBytes ("/usr/bin/mpirun" +:+ nl))
                    [PStr "--mca"; PStr "btl_tcp_links"; PStr "4";
                     PStr "--hostfile"; PStr "/tmp/tmp"; PStr "--";
                     PStr "/usr/bin/python3"; PStr "train.py"; PStr "--epochs"; PStr "3"]]).
Proof. repeat split; reflexivity. Qed.

(** C10: the code in general and at the failing input.  [get_mpirun]
    does return the captured output of [which] as it is, a [bytes]
    object with its final newline.  But that value is never the target
    of a process replacement: with it as item 0 the list of lines
    126-134 cannot be joined at line 135, and no run of [main] calls
    [os.execv] at all; the scenario ends in a [TypeError] at the first
    write to the temporary file. *)
Theorem raw_launcher_path_not_executed (E : Env) (args : Args) (w : World) :
  (∀ out, which_mpirun E = (0%Z, out) →
     get_mpirun E w = (Ret (PBytes out), mkWorld (files w) (trace w ++ [EvWhich])))
  ∧ (∀ m w1, get_mpirun E w = (Ret m, w1) →
       ∀ mpiargs name executable cmd w2,
         print_and_exec E (build_run_args m mpiargs name executable cmd) w2
         = (Raise TypeError, w2))
  ∧ (∃ e evs, main E args w = (Raise e, mkWorld (files w) (trace w ++ evs))
              ∧ ∀ path argv, EvExecv path argv ∉ evs)
  ∧ main E0 A0 W0
    = (Raise TypeError,
       mkWorld ∅ [EvSsh "m1"; EvSsh "m2"; EvWhich; EvTmpCreate "/tmp/tmp";
                  EvTmpDelete "/tmp/tmp"]).
Proof.
  split; [|split; [|split; [|reflexivity]]].
  - intros out Hwhich. unfold get_mpirun. rewrite bind_run. unfold run_which.
    by rewrite Hwhich.
  - intros m w1. unfold get_mpirun. rewrite bind_run. unfold run_which.
    destruct (negb ((which_mpirun E).1 =? 0)%Z); [discriminate|].
    intros [= <- _]. done.
  - assert (Hquiet : ∀ evs, Forall (fun ev => ¬ launching ev) evs →
              ∀ path argv, EvExecv path argv ∉ evs).
    { intros evs Hevs path argv Hin. rewrite Forall_forall in Hevs.
      by apply (Hevs _ Hin). }
    destruct (main_run E args w)
      as (pre & Hpre%early_not_launching
          & [[e He]|[[_ He]|[(_ & _ & He)|(_ & hs & He)]]]);
      eexists _, _; (split; [exact He|]); apply Hquiet; [done| | |].
    + apply Forall_app. split; [done|]. repeat constructor; by intros [].
    + apply Forall_app. split; [done|]. repeat constructor; by intros [].
    + apply Forall_app. split; [done|]. destruct hs; repeat constructor; by intros [].
Qed.

(** ** More on parse_hosts *)

Lemma str_app_nil_r (s : string) : s +:+ "" = s.
Proof. induction s as [|c r IH]; [done|]. by rewrite append_cons, IH. Qed.

Lemma str_app_assoc (a b c : string) : (a +:+ b) +:+ c = a +:+ b +:+ c.
Proof. induction a as [|d r IH]; [done|]. by rewrite !append_cons, IH. Qed.

Lemma count_char_app (c : ascii) (a b : string) :
  count_char c (a +:+ b) = count_char c a + count_char c b.
Proof.
  induction a as [|d r IH]; [done|]. rewrite append_cons. simpl. rewrite IH. lia.
Qed.

Lemma split_from_cons (sep : ascii) (cur s : string) :
  ∃ x l, PyStr.split_from sep cur s = x :: l.
Proof.
  revert cur. induction s as [|c r IH]; intros cur; simpl; [by eexists _, _|].
  destruct (Ascii.eqb c sep); [by eexists _, _|apply IH].
Qed.

Lemma split_from_join (sep : ascii) (cur s : string) :
  join_with (String sep "") (PyStr.split_from sep cur s) = cur +:+ s.
Proof.
  revert cur. induction s as [|c r IH]; intros cur; cbn [PyStr.split_from].
  - simpl. by rewrite str_app_nil_r.
  - destruct (Ascii.eqb_spec c sep) as [->|Hne].
    + destruct (split_from_cons sep "" r) as (x & l & Hx).
      specialize (IH ""). rewrite Hx in IH |- *.
      change (join_with (String sep "") (cur :: x :: l))
        with (cur +:+ String sep "" +:+ join_with (String sep "") (x :: l)).
      by rewrite IH.
    + by rewrite IH, str_app_assoc.
Qed.

Lemma split_from_length (sep : ascii) (cur s : string) :
  length (PyStr.split_from sep cur s) = S (count_char sep s).
Proof.
  revert cur. induction s as [|c r IH]; intros cur; simpl; [done|].
  destruct (Ascii.eqb c sep); simpl; by rewrite IH.
Qed.

Lemma split_from_no_sep (sep : ascii) (cur s : string) :
  count_char sep cur = 0 →
  Forall (fun h => count_char sep h = 0) (PyStr.split_from sep cur s).
Proof.
  revert cur. induction s as [|c r IH]; intros cur Hcur; simpl; [by constructor|].
  destruct (Ascii.eqb c sep) eqn:Hc.
  - constructor; [done|]. by apply IH.
  - apply IH. rewrite count_char_app. simpl. rewrite Hc. lia.
Qed.

(** X1: hosts given inline are the pieces between the commas.  Joined
    with commas they give the argument back; there is one more of them
    than there are commas, so at least one; none has a comma in it; and
    no file is opened and nothing else is done to get them. *)
Theorem parse_hosts_inline_round_trip (args : Args) (w : World) (s : string) :
  hosts args = Some s →
  ∃ hl, parse_hosts args w = (Ret hl, w)
        ∧ join_with "," hl = s
        ∧ length hl = S (count_char "," s)
        ∧ Forall (fun h => count_char "," h = 0) hl.
Proof.
  intros Hs. exists (PyStr.split "," s). unfold parse_hosts. rewrite Hs.
  split; [done|]. unfold PyStr.split. split; [apply (split_from_join "," "" s)|].
  split; [apply split_from_length|]. by apply split_from_no_sep.
Qed.

Lemma parse_hosts_inline_round_trip_witness :
  ∃ hl, parse_hosts A0 W0 = (Ret hl, W0)
        ∧ join_with "," hl = "m1,m2"
        ∧ length hl = S (count_char "," "m1,m2")
        ∧ Forall (fun h => count_char "," h = 0) hl.
Proof. apply (parse_hosts_inline_round_trip A0 W0 "m1,m2"). reflexivity. Defined.

Lemma lstrip_starts_clean (s : string) : starts_clean (PyStr.lstrip s).
Proof.
  induction s as [|c r IH]; simpl; [done|].
  destruct (PyStr.isspace c) eqn:Hc; [done|]. simpl. done.
Qed.

Lemma starts_clean_lstrip (s : string) : starts_clean s → PyStr.lstrip s = s.
Proof. destruct s as [|c r]; simpl; [done|]. by intros ->. Qed.

Lemma rstrip_starts_clean (s : string) : starts_clean s → starts_clean (PyStr.rstrip s).
Proof.
  destruct s as [|c r]; simpl; [done|]. intros Hc.
  destruct (PyStr.rstrip r); [by rewrite Hc|done].
Qed.

Lemma rstrip_cons (c : ascii) (r : string) :
  PyStr.rstrip (String c r)
  = match PyStr.rstrip r with
    | EmptyString => if PyStr.isspace c then EmptyString else String c EmptyString
    | String d r' => String c (String d r')
    end.
Proof. reflexivity. Qed.

Lemma rstrip_idemp (s : string) : PyStr.rstrip (PyStr.rstrip s) = PyStr.rstrip s.
Proof.
  induction s as [|c r IH]; [done|]. rewrite rstrip_cons.
  destruct (PyStr.rstrip r) as [|d r'] eqn:Hr.
  - destruct (PyStr.isspace c) eqn:Hc; [done|]. rewrite rstrip_cons. simpl. by rewrite Hc.
  - by rewrite rstrip_cons, IH.
Qed.

(** Stripping twice is stripping once. *)
Lemma strip_idemp (s : string) : PyStr.strip (PyStr.strip s) = PyStr.strip s.
Proof.
  unfold PyStr.strip.
  rewrite (starts_clean_lstrip (PyStr.rstrip (PyStr.lstrip s))).
  - apply rstrip_idemp.
  - apply rstrip_starts_clean, lstrip_starts_clean.
Qed.

Lemma count_char_lstrip (c : ascii) (s : string) :
  count_char c (PyStr.lstrip s) ≤ count_char c s.
Proof.
  induction s as [|d r IH]; simpl; [done|].
  destruct (PyStr.isspace d); simpl; lia.
Qed.

Lemma count_char_rstrip (c : ascii) (s : string) :
  count_char c (PyStr.rstrip s) ≤ count_char c s.
Proof.
  induction s as [|d r IH]; simpl; [done|].
  destruct (PyStr.rstrip r); [destruct (PyStr.isspace d)|]; simpl in *; lia.
Qed.

Lemma count_char_strip (c : ascii) (s : string) :
  count_char c (PyStr.strip s) ≤ count_char c s.
Proof.
  unfold PyStr.strip. pose proof (count_char_rstrip c (PyStr.lstrip s)).
  pose proof (count_char_lstrip c s). lia.
Qed.

(** The terminator at the end of a line goes with the rest of the white
    space there. *)
Lemma strip_terminator (s : string) : PyStr.strip (s +:+ nl) = PyStr.strip s.
Proof.
  unfold PyStr.strip. induction s as [|c r IH]; [done|].
  rewrite append_cons. simpl PyStr.lstrip.
  destruct (PyStr.isspace c); [done|].
  by rewrite <- append_cons, rstrip_terminator.
Qed.

Lemma lines_from_stripped_no_nl (cur text : string) :
  count_char "010" cur = 0 →
  Forall (fun l => count_char "010" (PyStr.strip l) = 0) (PyStr.lines_from cur text).
Proof.
  revert cur. induction text as [|c r IH]; intros cur Hcur; simpl.
  - pose proof (count_char_strip "010" cur).
    destruct cur; constructor; [lia|constructor].
  - destruct (Ascii.eqb_spec c "010") as [->|Hne].
    + constructor; [|by apply IH].
      change (String "010" "") with nl. rewrite strip_terminator.
      pose proof (count_char_strip "010" cur). lia.
    + apply IH. rewrite count_char_app. simpl.
      destruct (Ascii.eqb_spec c "010"); [done|lia].
Qed.

(** X2: hosts read from a host file are clean.  Every entry is free of
    white space at both ends (stripping it again changes nothing) and
    has no line terminator in it. *)
Theorem parse_hosts_hostfile_clean (args : Args) (w w' : World) (hl : list string) :
  hosts args = None →
  parse_hosts args w = (Ret hl, w') →
  Forall (fun h => PyStr.strip h = h ∧ count_char "010" h = 0) hl.
Proof.
  intros Hh. unfold parse_hosts. rewrite Hh.
  destruct (hostfile args) as [path|]; [|discriminate].
  rewrite bind_run. unfold open_read.
  destruct (files w !! path) as [[text|]|]; [|discriminate..].
  intros H. injection H as <- _.
  pose proof (lines_from_stripped_no_nl "" text eq_refl) as Hnl.
  unfold PyStr.lines. induction Hnl as [|l ls Hl _ IH]; simpl; constructor; [|done].
  split; [apply strip_idemp|done].
Qed.

Lemma parse_hosts_hostfile_clean_witness :
  Forall (fun h => PyStr.strip h = h ∧ count_char "010" h = 0) ["h1"; ""; "h2"].
Proof.
  apply (parse_hosts_hostfile_clean
           (mkArgs None (Some "hosts.txt") [] 4 false false ["echo"])
           (mkWorld {[ "hosts.txt" := Text hosts_txt ]} [])
           (mkWorld {[ "hosts.txt" := Text hosts_txt ]} [EvOpen "hosts.txt"]));
    reflexivity.
Defined.

(** ** More on check_connection *)

(** X5: checking a list made of two parts is checking the first part
    and then, when that went through, the second. *)
Theorem check_connection_app (E : Env) (hs1 hs2 : list string) (w : World) :
  check_connection E (hs1 ++ hs2) w
  = (check_connection E hs1 ≫= fun _ => check_connection E hs2) w.
Proof.
  revert w. induction hs1 as [|h hs1 IH]; intros w; [done|].
  simpl app. simpl check_connection. rewrite !bind_run. unfold run_ssh.
  destruct (ssh_ls E (trace w) h) as [rc|]; [|done].
  destruct (negb (rc =? 0)%Z); [done|].
  rewrite IH. by rewrite bind_run.
Qed.

Lemma str_length_app (a b : string) :
  String.length (a +:+ b) = String.length a + String.length b.
Proof. induction a as [|c r IH]; [done|]. rewrite append_cons. simpl. by rewrite IH. Qed.

Lemma str_app_same_length (a b x y : string) :
  String.length a = String.length b → a +:+ x = b +:+ y → a = b.
Proof.
  revert b. induction a as [|c r IH]; intros [|d b] Hlen Heq; try done.
  rewrite !append_cons in Heq. injection Heq as -> Heq.
  f_equal. apply IH; [by injection Hlen|done].
Qed.

(** X14: the error of a failed probe tells the host: two hosts with the
    same error are the same host. *)
Theorem connect_error_inj (h1 h2 : string) :
  connect_error h1 = connect_error h2 → h1 = h2.
Proof.
  unfold connect_error. intros Heq. injection Heq as Heq.
  apply (inj (String.append _)) in Heq.
  apply (str_app_same_length _ _ _ _) in Heq; [done|].
  apply (f_equal String.length) in Heq.
  rewrite !str_length_app in Heq. simpl in Heq. lia.
Qed.

Lemma connect_error_inj_witness : "m1" = "m1".
Proof. apply (connect_error_inj "m1" "m1"). reflexivity. Defined.

(** ** More on the runs of main *)

(** X3: a host file that cannot be read ends the run there.  The run
    raises the error of [open]; no host is probed, the launcher is not
    looked up and no temporary file is made. *)
Theorem main_unreadable_hostfile (E : Env) (args : Args) (w : World) (path : string) :
  hosts args = None → hostfile args = Some path → files w !! path = None →
  main E args w = (Raise OSError, mkWorld (files w) (trace w ++ [EvOpen path])).
Proof.
  intros Hh Hf Hnone. rewrite main_unfold, bind_run.
  unfold parse_hosts. rewrite Hh, Hf, bind_run. unfold open_read. by rewrite Hnone.
Qed.

Lemma main_unreadable_hostfile_witness :
  main E0 (mkArgs None (Some "hosts.txt") [] 4 false false ["echo"]) W0
  = (Raise OSError, mkWorld (files W0) (trace W0 ++ [EvOpen "hosts.txt"])).
Proof.
  apply (main_unreadable_hostfile E0
           (mkArgs None (Some "hosts.txt") [] 4 false false ["echo"]) W0 "hosts.txt");
    reflexivity.
Defined.

(** X7: with hosts given inline, the probes answering 0 or skipped, the
    launcher found and a command given, the run ends in a [TypeError] at
    the first write to the temporary file, which is made and deleted
    again without anything in it. *)
Theorem main_inline_hosts_type_error (E : Env) (args : Args) (w : World) (s : string) :
  hosts args = Some s →
  (skip_ssh_check args = true
   ∨ ∀ i h, PyStr.split "," s !! i = Some h →
       answer E (trace w) (PyStr.split "," s) i h = Exited 0) →
  (which_mpirun E).1 = 0%Z →
  cmd args ≠ [] →
  main E args w
  = (Raise TypeError,
     mkWorld (files w)
       (trace w
          ++ (if skip_ssh_check args then [] else map EvSsh (PyStr.split "," s))
          ++ [EvWhich; EvTmpCreate (fresh_string "/tmp/tmp" (files w));
              EvTmpDelete (fresh_string "/tmp/tmp" (files w))])).
Proof.
  intros Hs Hprobes Hrc Hcmd. rewrite main_unfold, bind_run.
  unfold parse_hosts. rewrite Hs, ret_run, bind_run.
  destruct (split_from_cons "," "" s) as (x & l & Hx).
  assert (Hafter : ∀ w1, files w1 = files w →
            after_hosts E args (PyStr.split "," s) w1
            = (Raise TypeError,
               mkWorld (files w)
                 (trace w1 ++ [EvWhich; EvTmpCreate (fresh_string "/tmp/tmp" (files w));
                               EvTmpDelete (fresh_string "/tmp/tmp" (files w))]))).
  { intros w1 Hw1. rewrite after_hosts_run, Hrc. simpl negb. cbv iota.
    destruct (cmd args) as [|c cs]; [done|].
    unfold PyStr.split. rewrite Hx, Hw1. reflexivity. }
  destruct (skip_ssh_check args) eqn:Hskip; cbn [negb].
  - rewrite ret_run, Hafter; [|done]. done.
  - destruct Hprobes as [Hp|Hp]; [done|].
    destruct (check_connection_cases E (PyStr.split "," s) w)
      as [[_ Hrun]|(i & h & Hi & _ & Hbad & _)]; [|destruct Hbad; by apply Hp].
    rewrite Hrun, Hafter; [|done]. unfold probed. simpl trace.
    by rewrite firstn_all, <- app_assoc.
Qed.

Lemma main_inline_hosts_type_error_witness :
  main E0 A0 W0
  = (Raise TypeError,
     mkWorld (files W0)
       (trace W0
          ++ (if skip_ssh_check A0 then [] else map EvSsh (PyStr.split "," "m1,m2"))
          ++ [EvWhich; EvTmpCreate (fresh_string "/tmp/tmp" (files W0));
              EvTmpDelete (fresh_string "/tmp/tmp" (files W0))])).
Proof.
  apply (main_inline_hosts_type_error E0 A0 W0 "m1,m2");
    [reflexivity | right; reflexivity | reflexivity | discriminate].
Defined.

Lemma parse_hosts_shape (args : Args) (w : World) :
  ∃ r opens, parse_hosts args w = (r, mkWorld (files w) (trace w ++ opens))
    ∧ r ≠ Replaced
    ∧ (opens = []
       ∨ ∃ path, hosts args = None ∧ hostfile args = Some path ∧ opens = [EvOpen path]).
Proof.
  unfold parse_hosts. destruct (hosts args) as [hs|].
  - exists (Ret (PyStr.split "," hs)), []. rewrite app_nil_r, world_eta. by repeat split; [|left].
  - destruct (hostfile args) as [path|].
    + rewrite bind_run. unfold open_read. destruct (files w !! path) as [[text|]|].
      * eexists (Ret _), [EvOpen path]. repeat split; [done|]. right. by exists path.
      * exists (Raise UnicodeDecodeError), [EvOpen path].
        repeat split; [done|]. right. by exists path.
      * exists (Raise OSError), [EvOpen path]. repeat split; [done|]. right. by exists path.
    + eexists (Raise _), []. rewrite app_nil_r, world_eta. by repeat split; [|left].
Qed.

(** X4: the order of a run.  What a run of [main] does is, in this
    order: open the host file, at most once and only when no hosts are
    given inline; probe hosts, a prefix of the host list in list order
    and none with [--skip-ssh-check]; look the launcher up, at most
    once; make one temporary file and delete it. *)
Theorem main_trace_order (E : Env) (args : Args) (w w' : World) (r : outcome unit) :
  main E args w = (r, w') →
  ∃ opens probes rest,
    trace w' = trace w ++ opens ++ map EvSsh probes ++ rest
    ∧ (opens = []
       ∨ ∃ path, hosts args = None ∧ hostfile args = Some path ∧ opens = [EvOpen path])
    ∧ (∀ hl w1, parse_hosts args w = (Ret hl, w1) → probes `prefix_of` hl)
    ∧ (skip_ssh_check args = true → probes = [])
    ∧ launch_events rest.
Proof.
  rewrite main_unfold, bind_run.
  destruct (parse_hosts_shape args w) as (r0 & opens & Hparse & Hr0 & Hopens).
  rewrite Hparse. destruct r0 as [hl|e|]; [| |done].
  - rewrite bind_run.
    assert (Hafter : ∀ w1, ∃ rest,
              trace (after_hosts E args hl w1).2 = trace w1 ++ rest ∧ launch_events rest).
    { intros w1. rewrite after_hosts_run.
      destruct (negb ((which_mpirun E).1 =? 0)%Z);
        [exists [EvWhich]; split; [done|right; by left]|].
      destruct (cmd args); [exists [EvWhich]; split; [done|right; by left]|].
      eexists. split; [reflexivity|]. right. right.
      exists (fresh_string "/tmp/tmp" (files w1)). destruct hl; [by right|by left]. }
    destruct (skip_ssh_check args) eqn:Hskip; cbn [negb].
    + rewrite ret_run. intros Hrun.
      destruct (Hafter (mkWorld (files w) (trace w ++ opens))) as (rest & Hrest & Hshape).
      rewrite Hrun in Hrest. simpl in Hrest.
      exists opens, [], rest. simpl. rewrite Hrest, <- app_assoc.
      split; [done|]. split; [done|]. split; [|done].
      intros hl' w1 [= <- _]. apply prefix_nil.
    + set (w0 := mkWorld (files w) (trace w ++ opens)).
      assert (Hprobed : ∀ n, trace (probed w0 hl n)
                             = trace w ++ opens ++ map EvSsh (take n hl))
        by (intros n; simpl; by rewrite <- app_assoc).
      destruct (check_connection_cases E hl w0)
        as [[_ Hrun]|(i & h & _ & _ & _ & Hrun)]; rewrite Hrun.
      * intros Hmain.
        destruct (Hafter (probed w0 hl (length hl))) as (rest & Hrest & Hshape).
        rewrite Hmain in Hrest. simpl fst in Hrest; simpl snd in Hrest.
        exists opens, (take (length hl) hl), rest.
        rewrite Hrest, Hprobed, <- !app_assoc.
        split; [done|]. split; [done|]. split; [|done].
        intros hl' w1 [= <- _]. apply prefix_take.
      * intros [= <- <-].
        exists opens, (take (S i) hl), []. rewrite Hprobed, app_nil_r.
        split; [done|]. split; [done|]. split; [|split; [done|by left]].
        intros hl' w1 [= <- _]. apply prefix_take.
  - intros [= <- <-]. exists opens, [], []. simpl. rewrite app_nil_r.
    split; [done|]. split; [done|]. split; [|split; [done|by left]].
    intros hl w1 Hp. discriminate Hp.
Qed.

Lemma main_trace_order_witness :
  ∃ opens probes rest,
    trace (mkWorld ∅ [EvSsh "m1"; EvSsh "m2"; EvWhich; EvTmpCreate "/tmp/tmp";
                      EvTmpDelete "/tmp/tmp"])
    = trace W0 ++ opens ++ map EvSsh probes ++ rest
    ∧ (opens = []
       ∨ ∃ path, hosts A0 = None ∧ hostfile A0 = Some path ∧ opens = [EvOpen path])
    ∧ (∀ hl w1, parse_hosts A0 W0 = (Ret hl, w1) → probes `prefix_of` hl)
    ∧ (skip_ssh_check A0 = true → probes = [])
    ∧ launch_events rest.
Proof. apply (main_trace_order E0 A0 W0 _ (Raise TypeError)). reflexivity. Defined.

(** X13: three options change nothing.  The [--env] entries, the number
    of connections and [--skip-python-path] have no effect on any run of
    [main]: the outcome and everything done are the same whatever they
    are. *)
Theorem main_ignores_env_and_tuning (E : Env) (h hf : option string)
    (e1 e2 : list string) (c1 c2 : Z) (s p1 p2 : bool) (cmd : list string) (w : World) :
  main E (mkArgs h hf e1 c1 s p1 cmd) w = main E (mkArgs h hf e2 c2 s p2 cmd) w.
Proof.
  rewrite !main_unfold, !bind_run.
  change (parse_hosts (mkArgs h hf e2 c2 s p2 cmd))
    with (parse_hosts (mkArgs h hf e1 c1 s p1 cmd)).
  destruct (parse_hosts (mkArgs h hf e1 c1 s p1 cmd) w) as [[hl|e|] w1]; [|done..].
  rewrite !bind_run. cbn [skip_ssh_check].
  destruct ((if negb s then check_connection E hl else mret tt) w1) as [[[]|e|] w2];
    [|done..].
  by rewrite !after_hosts_run.
Qed.

(** ** More on the blocks of main *)

(** X10: the message of line 135 cannot be made.  Whatever
    [get_mpirun] returns is a [bytes] object, and with it as the first
    item the list of lines 126-134 cannot be joined: the line raises a
    [TypeError] before anything is printed or launched. *)
Theorem launcher_bytes_break_message (E : Env) (w w1 : World) (mpirun : pyval) :
  get_mpirun E w = (Ret mpirun, w1) →
  ∀ mpiargs name executable cmd w2,
    print_and_exec E (build_run_args mpirun mpiargs name executable cmd) w2
    = (Raise TypeError, w2).
Proof.
  unfold get_mpirun. rewrite bind_run. unfold run_which.
  destruct (negb ((which_mpirun E).1 =? 0)%Z); [discriminate|].
  intros [= <- _]. done.
Qed.

Lemma launcher_bytes_break_message_witness :
  print_and_exec E0
    (build_run_args (PBytes ("/usr/bin/mpirun" +:+ nl)) (build_mpiargs [] 4) "/tmp/tmp"
       "/usr/bin/python3" ["train.py"]) W0
  = (Raise TypeError, W0).
Proof.
  apply (launcher_bytes_break_message E0 W0 (mkWorld ∅ [EvWhich])). reflexivity.
Defined.

Lemma join_all_str (l : list string) (w : World) :
  join (map PStr l) w = (Ret (join_with "" l), w).
Proof.
  induction l as [|x r IH]; [done|].
  simpl map. simpl join. rewrite bind_run, IH, ret_run.
  destruct r; [by rewrite str_app_nil_r|done].
Qed.

(** X11: what lines 135-136 do with a list of [str] items.  The message
    has the items one after the other with nothing between them, and
    [os.execv] gets the first item as the path and the items after it as
    the argument vector: the path is not in the vector. *)
Theorem exec_vector_lacks_path (E : Env) (path flag : string) (rest : list string)
    (w : World) :
  flag ≠ "" →
  print_and_exec E (map PStr (path :: flag :: rest)) w
  = (if execv_ok E (PStr path) (map PStr (flag :: rest)) then Replaced else Raise OSError,
     mkWorld (files w)
       (trace w ++ [EvPrint ("Running `" +:+ join_with "" (path :: flag :: rest) +:+ "`");
                    EvExecv (PStr path) (map PStr (flag :: rest))])).
Proof.
  intros Hflag. unfold print_and_exec.
  rewrite bind_run, join_all_str, bind_run. unfold emit. rewrite bind_run.
  simpl map. simpl pop0. rewrite ret_run. simpl fst; simpl snd.
  destruct flag as [|c f]; [done|]. unfold execv. simpl trace. simpl files.
  rewrite <- app_assoc. by destruct (execv_ok _ _ _).
Qed.

Lemma exec_vector_lacks_path_witness :
  print_and_exec E0 (map PStr ["/usr/bin/mpirun"; "--mca"; "btl_tcp_links"; "4"]) W0
  = (if execv_ok E0 (PStr "/usr/bin/mpirun") (map PStr ["--mca"; "btl_tcp_links"; "4"])
     then Replaced else Raise OSError,
     mkWorld (files W0)
       (trace W0
          ++ [EvPrint ("Running `"
                       +:+ join_with "" ["/usr/bin/mpirun"; "--mca"; "btl_tcp_links"; "4"]
                       +:+ "`");
              EvExecv (PStr "/usr/bin/mpirun") (map PStr ["--mca"; "btl_tcp_links"; "4"])])).
Proof.
  apply (exec_vector_lacks_path E0 "/usr/bin/mpirun" "--mca" ["btl_tcp_links"; "4"] W0).
  discriminate.
Defined.

Lemma pairs_length (items : list pyval) :
  length (flat_map (fun e => [PStr "-x"; e]) items) = 2 * length items.
Proof. induction items as [|x items IH]; simpl; lia. Qed.

Lemma pairs_lookup (items tail : list pyval) (i : nat) (e : pyval) :
  items !! i = Some e →
  (flat_map (fun e => [PStr "-x"; e]) items ++ tail) !! (2 * i) = Some (PStr "-x")
  ∧ (flat_map (fun e => [PStr "-x"; e]) items ++ tail) !! (2 * i + 1) = Some e.
Proof.
  revert i. induction items as [|x items IH]; intros i Hi; [by rewrite lookup_nil in Hi|].
  destruct i as [|i].
  - simpl in Hi. injection Hi as ->. by split.
  - simpl in Hi. destruct (IH i Hi) as [Heven Hodd].
    replace (2 * S i) with (S (S (2 * i))) by lia.
    replace (S (S (2 * i)) + 1) with (S (S (2 * i + 1))) by lia.
    by split.
Qed.

(** X12: the flags of lines 121-124 for the items the loop runs over.
    There are two for each item and three more; item number [i] stands
    at place [2 i + 1] behind a [-x] at place [2 i]; and the last three
    are [--mca], [btl_tcp_links] and the number of connections in
    decimal. *)
Theorem build_mpiargs_layout (items : list pyval) (connections : Z) :
  length (build_mpiargs items connections) = 2 * length items + 3
  ∧ (∀ i e, items !! i = Some e →
       build_mpiargs items connections !! (2 * i) = Some (PStr "-x")
       ∧ build_mpiargs items connections !! (2 * i + 1) = Some e)
  ∧ drop (2 * length items) (build_mpiargs items connections)
    = [PStr "--mca"; PStr "btl_tcp_links"; PStr (PyStr.of_int connections)].
Proof.
  unfold build_mpiargs. rewrite extend_pairs. simpl app at 1.
  split; [|split].
  - rewrite length_app, pairs_length. simpl. lia.
  - intros i e Hi. by apply pairs_lookup.
  - rewrite <- pairs_length. apply drop_app_length.
Qed.



Lemma lines_from_nonempty (cur text : string) :
  cur ≠ "" ∨ text ≠ "" → PyStr.lines_from cur text ≠ [].
Proof.
  revert cur. induction text as [|c r IH]; intros cur Hne; simpl.
  - destruct cur; [by destruct Hne|done].
  - destruct (Ascii.eqb c "010"); [done|]. apply IH. left. by destruct cur.
Qed.

(** X8: with the hosts read from a host file, the probes answering 0
    or skipped, the launcher found and a command given, the run ends in
    the temporary file block: for a host file with text in it, in a
    [TypeError] at the first write; for an empty one, after the flush,
    in a [NameError] for [env].  The temporary file is deleted either
    way. *)
Theorem main_hostfile_run (E : Env) (args : Args) (w : World) (path text : string) :
  hosts args = None → hostfile args = Some path → files w !! path = Some (Text text) →
  (skip_ssh_check args = true
   ∨ ∀ i h, map PyStr.strip (PyStr.lines text) !! i = Some h →
       answer E (trace w ++ [EvOpen path]) (map PyStr.strip (PyStr.lines text)) i h
       = Exited 0) →
  (which_mpirun E).1 = 0%Z →
  cmd args ≠ [] →
  main E args w
  = (Raise (if decide (text = "") then NameError "env" else TypeError),
     mkWorld (files w)
       (trace w ++ [EvOpen path]
          ++ (if skip_ssh_check args then []
              else map EvSsh (map PyStr.strip (PyStr.lines text)))
          ++ [EvWhich; EvTmpCreate (fresh_string "/tmp/tmp" (files w))]
          ++ (if decide (text = "") then [EvTmpFlush (fresh_string "/tmp/tmp" (files w))]
              else [])
          ++ [EvTmpDelete (fresh_string "/tmp/tmp" (files w))])).
Proof.
  intros Hh Hf Htext Hprobes Hrc Hcmd. rewrite main_unfold, bind_run.
  unfold parse_hosts. rewrite Hh, Hf, bind_run. unfold open_read. rewrite Htext, ret_run.
  rewrite bind_run.
  set (hl := map PyStr.strip (PyStr.lines text)) in *.
  assert (Hblock : block_error hl = (if decide (text = "") then NameError "env" else TypeError)
                   ∧ ∀ n, block_events hl n = (if decide (text = "") then [EvTmpFlush n] else [])).
  { destruct (decide (text = "")) as [->|Hne]; [done|].
    pose proof (lines_from_nonempty "" text (or_intror Hne)) as Hl.
    unfold hl, PyStr.lines. by destruct (PyStr.lines_from "" text). }
  destruct Hblock as [Herr Hevs].
  assert (Hafter : ∀ w1, files w1 = files w →
            after_hosts E args hl w1
            = (Raise (if decide (text = "") then NameError "env" else TypeError),
               mkWorld (files w)
                 (trace w1 ++ [EvWhich; EvTmpCreate (fresh_string "/tmp/tmp" (files w))]
                    ++ (if decide (text = "")
                        then [EvTmpFlush (fresh_string "/tmp/tmp" (files w))] else [])
                    ++ [EvTmpDelete (fresh_string "/tmp/tmp" (files w))]))).
  { intros w1 Hw1. rewrite after_hosts_run, Hrc. simpl negb. cbv iota.
    destruct (cmd args) as [|c cs]; [done|].
    cbv zeta. by rewrite Herr, Hevs, Hw1. }
  destruct (skip_ssh_check args) eqn:Hskip; cbn [negb].
  - rewrite ret_run, Hafter; [|done]. simpl trace. by rewrite <- !app_assoc.
  - destruct Hprobes as [Hp|Hp]; [done|].
    destruct (check_connection_cases E hl (mkWorld (files w) (trace w ++ [EvOpen path])))
      as [[_ Hrun]|(i & h & Hi & _ & Hbad & _)]; [|destruct Hbad; by apply Hp].
    rewrite Hrun, Hafter; [|done]. unfold probed. simpl trace.
    by rewrite firstn_all, <- !app_assoc.
Qed.

Lemma main_hostfile_run_witness :
  main E0 (mkArgs None (Some "hosts.txt") [] 4 true false ["echo"])
       (mkWorld {[ "hosts.txt" := Text hosts_txt ]} [])
  = (Raise TypeError,
     mkWorld {[ "hosts.txt" := Text hosts_txt ]}
       [EvOpen "hosts.txt"; EvWhich; EvTmpCreate "/tmp/tmp"; EvTmpDelete "/tmp/tmp"]).
Proof.
  etrans.
  - apply (main_hostfile_run E0 (mkArgs None (Some "hosts.txt") [] 4 true false ["echo"])
             (mkWorld {[ "hosts.txt" := Text hosts_txt ]} []) "hosts.txt" hosts_txt);
      [reflexivity | reflexivity | reflexivity | by left | reflexivity | discriminate].
  - reflexivity.
Defined.
